(** * QTCAN: the DBC signal decoder of [dbc/dbc_classes.cpp]

    A shallow embedding of [DBC_SIGNAL::processAsText], [processAsInt],
    [processAsDouble] and of the three [findAttrValByName] /
    [findAttrValByIdx] pairs, followed by the properties of the decoder
    that the specification states.

    Conventions of the embedding.
    - C++ [int], [int32_t] and [int64_t] values are integers of [Z]; the
      conversions that can wrap are written out ([to_int32], [to_int64]).
    - C++ [double] is the primitive binary64 type [float] of Rocq.
    - A [bool f(..., T &out)] function becomes a function that receives the
      caller's current [out] and returns [Returns ok out'].
    - Objects that point at one another (signal -> owning message ->
      multiplexor signal) live in a store [Defs] and are named by index.
    - The recursion of [processAsInt] through the multiplexor pointer is
      driven by a fuel argument that bounds the depth of nested calls;
      [OutOfFuel] is the answer of a call whose nesting exceeds it. *)

From Stdlib Require Import ZArith List String Ascii Bool Lia Floats.
From Stdlib Require Import Strings.Byte DecimalString.
Import ListNotations.

Local Open Scope Z_scope.

(** ** Machine integers *)

Module Cxx.

(** Conversion of an integer to a signed two's-complement type of [w] bits. *)
Definition to_signed (w : Z) (z : Z) : Z :=
  let m := z mod 2 ^ w in
  if m <? 2 ^ (w - 1) then m else m - 2 ^ w.

Definition to_int32 : Z -> Z := to_signed 32.
Definition to_int64 : Z -> Z := to_signed 64.

Definition INT32_MIN : Z := - 2 ^ 31.
Definition INT64_MIN : Z := - 2 ^ 63.

(** C++ [a / b] on [int]: the quotient truncated toward zero. *)
Definition idiv (a b : Z) : Z := Z.quot a b.

End Cxx.

(** ** IEEE-754 values *)

Module IEEE.

(** [(double) z] for an integer [z]: the nearest binary64 value. *)
Definition double_of_int (z : Z) : float :=
  SF2Prim (binary_normalize prec emax z 0 false).

(** The integer part of a finite [x], rounded toward zero; [None] for NaN
    and the infinities. *)
Definition truncate (x : float) : option Z :=
  match Prim2SF x with
  | S754_zero _ => Some 0
  | S754_finite s m e =>
      let mag := if 0 <=? e then Zpos m * 2 ^ e else Zpos m / 2 ^ (- e) in
      Some (if s then - mag else mag)
  | S754_infinity _ | S754_nan => None
  end.

(** [(int64_t) x] and [(int32_t) x].  C++ leaves the conversion undefined
    when the truncated value does not fit; the embedding takes what the
    x86-64 conversion instructions deliver there, the most negative
    integer of the type. *)
Definition int64_of_double (x : float) : Z :=
  match truncate x with
  | Some v => if (Cxx.INT64_MIN <=? v) && (v <? 2 ^ 63) then v else Cxx.INT64_MIN
  | None => Cxx.INT64_MIN
  end.

Definition int32_of_double (x : float) : Z :=
  match truncate x with
  | Some v => if (Cxx.INT32_MIN <=? v) && (v <? 2 ^ 31) then v else Cxx.INT32_MIN
  | None => Cxx.INT32_MIN
  end.

(** The value whose encoding has sign [s], a biased exponent field [e] of
    [ebits] bits and a fraction field [m] of [mbits] bits. *)
Definition decode (ebits mbits : Z) (s : bool) (e m : Z) : float :=
  let bias := 2 ^ (ebits - 1) - 1 in
  if e =? 2 ^ ebits - 1 then
    if m =? 0 then (if s then neg_infinity else infinity) else nan
  else if e =? 0 then
    match m with
    | Zpos p => SF2Prim (S754_finite s p (1 - bias - mbits))
    | _ => if s then neg_zero else zero
    end
  else
    SF2Prim (S754_finite s (Z.to_pos (m + 2 ^ mbits)) (e - bias - mbits)).

(** [*((double * )(&w))]: the binary64 value with bit pattern [w]. *)
Definition double_of_bits (w : Z) : float :=
  let u := w mod 2 ^ 64 in
  decode 11 52 (Z.testbit u 63) ((u / 2 ^ 52) mod 2 ^ 11) (u mod 2 ^ 52).

(** [*((float * )(&w))] for a 64-bit [w] on a little-endian host: the
    binary32 value whose bit pattern is the low half of [w], widened to
    binary64 (exactly) as C++ does before it multiplies by a [double]. *)
Definition float_of_bits (w : Z) : float :=
  let u := w mod 2 ^ 32 in
  decode 8 23 (Z.testbit u 31) ((u / 2 ^ 23) mod 2 ^ 8) (u mod 2 ^ 23).

End IEEE.

(** ** Strings *)

Module QStr.

(** [QString::append] of an [unsigned char]: the Latin-1 character. *)
Definition of_bytes (bs : list byte) : string :=
  string_of_list_ascii (map ascii_of_byte bs).

(** Case folding of one character (the letters of ASCII). *)
Definition fold_case (c : ascii) : ascii :=
  let n := N_of_ascii c in
  if (65 <=? n)%N && (n <=? 90)%N then ascii_of_N (n + 32) else c.

Fixpoint fold (s : string) : string :=
  match s with
  | EmptyString => EmptyString
  | String c s' => String (fold_case c) (fold s')
  end.

End QStr.

(** ** The data model ([dbc_classes.h], as far as the code uses it) *)

Inductive DBC_SIG_VAL_TYPE : Set :=
  | UNSIGNED_INT | SIGNED_INT | SP_FLOAT | DP_FLOAT | STRING.

Definition valType_eqb (a b : DBC_SIG_VAL_TYPE) : bool :=
  match a, b with
  | UNSIGNED_INT, UNSIGNED_INT | SIGNED_INT, SIGNED_INT
  | SP_FLOAT, SP_FLOAT | DP_FLOAT, DP_FLOAT | STRING, STRING => true
  | _, _ => false
  end.

(** An entry of a value table: [valList.at(x).value], [.descript]. *)
Record DBC_VAL_ENUM_ENTRY : Set := mkVal {
  value : Z;
  descript : string
}.

Record DBC_ATTRIBUTE_VALUE : Set := mkAttr {
  attrName : string;
  attrValue : string
}.

(** Pointers into the store of definitions. *)
Definition sig_ptr := nat.
Definition msg_ptr := nat.

Record DBC_SIGNAL : Set := mkSignal {
  name : string;
  startBit : Z;
  signalSize : Z;
  intelByteOrder : bool;
  isMultiplexed : bool;
  multiplexValue : Z;
  valType : DBC_SIG_VAL_TYPE;
  factor : float;
  bias : float;
  unitName : string;
  valList : list DBC_VAL_ENUM_ENTRY;
  parentMessage : msg_ptr;
  attributes : list DBC_ATTRIBUTE_VALUE
}.

Record DBC_MESSAGE : Set := mkMessage {
  multiplexorSignal : option sig_ptr;   (* [None] is NULL *)
  msg_attributes : list DBC_ATTRIBUTE_VALUE
}.

Record DBC_NODE : Set := mkNode {
  node_attributes : list DBC_ATTRIBUTE_VALUE
}.

(** The definitions a decode call can reach through pointers. *)
Record Defs : Set := mkDefs {
  sigAt : sig_ptr -> DBC_SIGNAL;
  msgAt : msg_ptr -> DBC_MESSAGE
}.

(** [CANFrame]: [len] payload bytes, held in [data]. *)
Record CANFrame : Set := mkFrame {
  len : Z;
  data : list byte
}.

(** [data[i]].  An index outside the buffer addresses memory the frame does
    not own; the embedding reads [x00] there, and [inFrame] tells whether
    an index addresses one of the [len] bytes of the payload. *)
Definition byteAt (d : list byte) (i : Z) : byte :=
  if i <? 0 then x00 else nth (Z.to_nat i) d x00.

Definition inFrame (frame : CANFrame) (i : Z) : bool :=
  (0 <=? i) && (i <? len frame).

(** The result of a call [bool f(..., T &out)]. *)
Inductive call (T : Type) : Type :=
  | OutOfFuel
  | Returns (ok : bool) (out : T).
Arguments OutOfFuel {T}.
Arguments Returns {T} ok out.

(** ** The bit extractor *)

Module Utility.

(** Bit [g mod 8] (0 is the least significant) of byte [g / 8]. *)
Definition bitAt (d : list byte) (g : Z) : bool :=
  N.testbit (Byte.to_N (byteAt d (g / 8))) (Z.to_N (g mod 8)).

(** INTEL: the global indices [startBit .. startBit+length-1], upward. *)
Definition intelBits (startBit : Z) (length : nat) : list Z :=
  map (fun k => startBit + Z.of_nat k) (seq 0 length).

(** MOTOROLA: downward inside a byte, then bit 7 of the next byte. *)
Definition motorolaNext (g : Z) : Z :=
  if g mod 8 =? 0 then g + 15 else g - 1.

Fixpoint motorolaBits (g : Z) (length : nat) : list Z :=
  match length with
  | O => []
  | S n => g :: motorolaBits (motorolaNext g) n
  end.

(** The number whose binary digits, most significant first, are [bs]. *)
Definition magnitude (bs : list bool) : Z :=
  fold_left (fun acc (b : bool) => 2 * acc + (if b then 1 else 0)) bs 0.

Definition inBuffer (d : list byte) (g : Z) : bool :=
  (0 <=? g) && (g <? 8 * Z.of_nat (List.length d)).

(** Modelled from the spec: [Utility::processIntegerSignal] is declared in
    [utility.h], which is not among the sources.  This is the BitExtractor
    of section 4.1: [extractInteger(bytes, startBit, length, order, signed)]
    fails unless [length] is in 1..64 and [startBit + length] is at most the
    bit length of [bytes], and never reads outside [bytes]; in INTEL order
    the bit at [startBit] is the least significant, in MOTOROLA order it
    is the most significant and the sawtooth sequence is followed; with
    [signed], bit [length-1] of the magnitude is the sign. *)
Definition extractInteger (d : list byte) (startBit length : Z)
    (littleEndian isSigned : bool) : option Z :=
  let n := Z.to_nat length in
  let consumed :=
    if littleEndian then rev (intelBits startBit n)
    else motorolaBits startBit n in
  if (1 <=? length) && (length <=? 64)
     && (startBit + length <=? 8 * Z.of_nat (List.length d))
     && forallb (inBuffer d) consumed
  then
    let m := magnitude (map (bitAt d) consumed) in
    Some (if isSigned && Z.testbit m (length - 1) then m - 2 ^ length else m)
  else None.

(** Modelled from the spec: the callers of [dbc_classes.cpp] take the
    result of [Utility::processIntegerSignal] as a plain integer; where
    the extractor of section 4.1 fails this function answers 0. *)
Definition processIntegerSignal (d : list byte) (startBit sigSize : Z)
    (littleEndian isSigned : bool) : Z :=
  match extractInteger d startBit sigSize littleEndian isSigned with
  | Some v => v
  | None => 0
  end.

End Utility.

(** ** The decoder, [DBC_SIGNAL::processAs...] *)

Section Decoder.

(** [Utility::processIntegerSignal(data, startBit, sigSize, littleEndian,
    isSigned)] and [QString::number(double)] are defined outside
    [dbc_classes.cpp]; the decoder is embedded for any two such functions. *)
Variable processIntegerSignal : list byte -> Z -> Z -> bool -> bool -> Z.
Variable QString_number : float -> string.

Variable defs : Defs.

(** The multiplex block, which the three entry points repeat verbatim:
<<
  if (isMultiplexed) {
      if (parentMessage->multiplexorSignal != NULL) {
         int val;
         if (!parentMessage->multiplexorSignal->processAsInt(frame, val)) return false;
         if (val != multiplexValue) return false;
      }
      else return false;
  }
>>
    [callInt] is the nested [processAsInt(frame, .)].  [Some true]: the
    caller goes on; [Some false]: the caller returns false; [None]: the
    nested call ran out of fuel.  [val] is uninitialised in the source and
    read only after a successful call has assigned it. *)
Definition multiplexGate (callInt : DBC_SIGNAL -> Z -> call Z)
    (this : DBC_SIGNAL) : option bool :=
  if isMultiplexed this then
    match multiplexorSignal (msgAt defs (parentMessage this)) with
    | Some m =>
        match callInt (sigAt defs m) 0 with
        | OutOfFuel => None
        | Returns false _ => Some false
        | Returns true val => Some (val =? multiplexValue this)
        end
    | None => Some false
    end
  else Some true.

Definition isSignedType (this : DBC_SIGNAL) : bool :=
  valType_eqb (valType this) SIGNED_INT.

Fixpoint processAsInt (fuel : nat) (frame : CANFrame) (this : DBC_SIGNAL)
    (outValue : Z) {struct fuel} : call Z :=
  match fuel with
  | O => OutOfFuel
  | S fuel' =>
      match valType this with
      | STRING | SP_FLOAT | DP_FLOAT => Returns false outValue
      | SIGNED_INT | UNSIGNED_INT =>
          match multiplexGate (processAsInt fuel' frame) this with
          | None => OutOfFuel
          | Some false => Returns false outValue
          | Some true =>
              if len frame * 8 <? startBit this + signalSize this then
                Returns false outValue
              else
                let result :=
                  Cxx.to_int32
                    (processIntegerSignal (data frame) (startBit this)
                       (signalSize this) (intelByteOrder this)
                       (isSignedType this)) in
                let endResult :=
                  (IEEE.double_of_int result * factor this + bias this)%float in
                let result := IEEE.int32_of_double endResult in
                Returns true result
          end
      end
  end.

(** Byte indices that the STRING loop of [processAsText] reads:
    [startByte + x] for [0 <= x < bytes]. *)
Definition stringIndices (this : DBC_SIGNAL) : list Z :=
  let startByte := Cxx.idiv (startBit this) 8 in
  let bytes := Cxx.idiv (signalSize this) 8 in
  map (fun x => startByte + Z.of_nat x) (seq 0 (Z.to_nat bytes)).

(** The loop over [valList]: the description of the first entry whose
    value equals [result]. *)
Fixpoint findVal (l : list DBC_VAL_ENUM_ENTRY) (result : Z) : option string :=
  match l with
  | [] => None
  | e :: l' => if value e =? result then Some (descript e) else findVal l' result
  end.

(** Lines 97-120: the text for [result] and [endResult]. *)
Definition outputString (this : DBC_SIGNAL) (result : Z) (endResult : float)
    : string :=
  let prefix := (name this ++ ": ")%string in
  if 0 <? Z.of_nat (List.length (valList this)) then
    match findVal (valList this) result with
    | Some d => (prefix ++ d)%string
    | None => (prefix ++ (QString_number endResult ++ unitName this))%string
    end
  else (prefix ++ (QString_number endResult ++ unitName this))%string.

Definition processAsText (fuel : nat) (frame : CANFrame) (this : DBC_SIGNAL)
    (outString : string) : call string :=
  match valType this with
  | STRING =>
      let buildString :=
        QStr.of_bytes (map (byteAt (data frame)) (stringIndices this)) in
      Returns true buildString
  | _ =>
      match multiplexGate (processAsInt fuel frame) this with
      | None => OutOfFuel
      | Some false => Returns false outString
      | Some true =>
          match valType this with
          | SIGNED_INT | UNSIGNED_INT =>
              let result :=
                Cxx.to_int64
                  (processIntegerSignal (data frame) (startBit this)
                     (signalSize this) (intelByteOrder this)
                     (isSignedType this)) in
              let endResult :=
                (IEEE.double_of_int result * factor this + bias this)%float in
              let result := IEEE.int64_of_double endResult in
              Returns true (outputString this result endResult)
          | SP_FLOAT =>
              let result :=
                Cxx.to_int64
                  (processIntegerSignal (data frame) (startBit this) 32
                     false false) in
              let endResult :=
                (IEEE.float_of_bits result * factor this + bias this)%float in
              Returns true (outputString this result endResult)
          | _ =>
              if len frame <? 8 then Returns false outString
              else
                let result :=
                  Cxx.to_int64
                    (processIntegerSignal (data frame) 0 64 false false) in
                let endResult :=
                  (IEEE.double_of_bits result * factor this + bias this)%float in
                Returns true (outputString this result endResult)
          end
      end
  end.

Definition processAsDouble (fuel : nat) (frame : CANFrame) (this : DBC_SIGNAL)
    (outValue : float) : call float :=
  match valType this with
  | STRING => Returns false outValue
  | _ =>
      match multiplexGate (processAsInt fuel frame) this with
      | None => OutOfFuel
      | Some false => Returns false outValue
      | Some true =>
          match valType this with
          | SIGNED_INT | UNSIGNED_INT =>
              if len frame * 8 <? startBit this + signalSize this then
                Returns false outValue
              else
                let result :=
                  Cxx.to_int64
                    (processIntegerSignal (data frame) (startBit this)
                       (signalSize this) (intelByteOrder this)
                       (isSignedType this)) in
                let endResult :=
                  (IEEE.double_of_int result * factor this + bias this)%float in
                Returns true endResult
          | SP_FLOAT =>
              if len frame * 8 <? startBit this + 32 then
                Returns false outValue
              else
                let result :=
                  Cxx.to_int64
                    (processIntegerSignal (data frame) (startBit this) 32
                       false false) in
                let endResult :=
                  (IEEE.float_of_bits result * factor this + bias this)%float in
                Returns true endResult
          | _ =>
              if len frame <? 8 then Returns false outValue
              else
                let result :=
                  Cxx.to_int64
                    (processIntegerSignal (data frame) 0 64 false false) in
                let endResult :=
                  (IEEE.double_of_bits result * factor this + bias this)%float in
                Returns true endResult
          end
      end
  end.

End Decoder.

(** ** Attribute lookup, [findAttrValByName] and [findAttrValByIdx] *)

Module QString.

(** [a.compare(b, Qt::CaseInsensitive)] on strings of ASCII: negative,
    zero or positive as the case-folded [a] is below, equal to or above
    the case-folded [b]. *)
Definition compare_CaseInsensitive (a b : string) : Z :=
  match String.compare (QStr.fold a) (QStr.fold b) with
  | Lt => -1
  | Eq => 0
  | Gt => 1
  end.

End QString.

Section Attributes.

(** [QString::compare(other, Qt::CaseInsensitive)], a function of Qt. *)
Variable compare : string -> string -> Z.

(** The pointer [&attributes[i]] is embedded as [Some i], NULL as [None]. *)
Definition attr_ptr := option Z.

(** [for (int i = ...; i < attributes.length(); i++)
       if (attributes[i].attrName.compare(name, Qt::CaseInsensitive) == 0)
         return &attributes[i];
     return NULL;]
    entered with the entries from position [i] on. *)
Fixpoint scanFrom (rest : list DBC_ATTRIBUTE_VALUE) (name : string) (i : Z)
    : attr_ptr :=
  match rest with
  | [] => None
  | a :: rest' =>
      if compare (attrName a) name =? 0 then Some i
      else scanFrom rest' name (i + 1)
  end.

Definition DBC_SIGNAL_findAttrValByName (this : DBC_SIGNAL) (name : string)
    : attr_ptr :=
  if Z.of_nat (List.length (attributes this)) =? 0 then None
  else scanFrom (attributes this) name 0.

Definition DBC_SIGNAL_findAttrValByIdx (this : DBC_SIGNAL) (idx : Z)
    : attr_ptr :=
  if idx <? 0 then None
  else if idx >=? Z.of_nat (List.length (attributes this)) then None
  else Some idx.

Definition DBC_MESSAGE_findAttrValByName (this : DBC_MESSAGE) (name : string)
    : attr_ptr :=
  if Z.of_nat (List.length (msg_attributes this)) =? 0 then None
  else scanFrom (msg_attributes this) name 0.

Definition DBC_MESSAGE_findAttrValByIdx (this : DBC_MESSAGE) (idx : Z)
    : attr_ptr :=
  if idx <? 0 then None
  else if idx >=? Z.of_nat (List.length (msg_attributes this)) then None
  else Some idx.

Definition DBC_NODE_findAttrValByName (this : DBC_NODE) (name : string)
    : attr_ptr :=
  if Z.of_nat (List.length (node_attributes this)) =? 0 then None
  else scanFrom (node_attributes this) name 0.

Definition DBC_NODE_findAttrValByIdx (this : DBC_NODE) (idx : Z)
    : attr_ptr :=
  if idx <? 0 then None
  else if idx >=? Z.of_nat (List.length (node_attributes this)) then None
  else Some idx.

(** The entry a pointer into [l] points at. *)
Definition deref (l : list DBC_ATTRIBUTE_VALUE) (p : attr_ptr)
    : option DBC_ATTRIBUTE_VALUE :=
  match p with
  | Some i => if i <? 0 then None else nth_error l (Z.to_nat i)
  | None => None
  end.

End Attributes.

(** ** Notions used to state the properties *)

Section Chain.

Variable defs : Defs.

(** The signal on which [processAsInt] of [this] nests a call of itself:
    the multiplexor of the owning message, when [this] passes the type
    gate and is multiplexed. *)
Definition nestedSignal (this : DBC_SIGNAL) : option DBC_SIGNAL :=
  match valType this with
  | STRING | SP_FLOAT | DP_FLOAT => None
  | SIGNED_INT | UNSIGNED_INT =>
      if isMultiplexed this then
        option_map (sigAt defs)
          (multiplexorSignal (msgAt defs (parentMessage this)))
      else None
  end.

(** [nests n this]: the calls of [processAsInt] on [this] nest at least
    [n] deep. *)
Fixpoint nests (n : nat) (this : DBC_SIGNAL) : bool :=
  match n with
  | O => true
  | S n' =>
      match nestedSignal this with
      | Some m => nests n' m
      | None => false
      end
  end.

(** The multiplexor that a multiplexed signal is resolved against. *)
Definition multiplexorOf (this : DBC_SIGNAL) : option DBC_SIGNAL :=
  option_map (sigAt defs) (multiplexorSignal (msgAt defs (parentMessage this))).

(** [blockNests n this]: the multiplex block of [processAsText] and
    [processAsDouble] on [this] is reached and nests [n] calls of
    [processAsInt]. *)
Definition blockNests (n : nat) (this : DBC_SIGNAL) : bool :=
  negb (valType_eqb (valType this) STRING) && isMultiplexed this &&
  match multiplexorOf this with
  | Some m => nests n m
  | None => false
  end.

End Chain.

(** [this] with the multiplexed flag cleared: the ordinary decode. *)
Definition notMultiplexed (this : DBC_SIGNAL) : DBC_SIGNAL :=
  mkSignal (name this) (startBit this) (signalSize this) (intelByteOrder this)
    false (multiplexValue this) (valType this) (factor this) (bias this)
    (unitName this) (valList this) (parentMessage this) (attributes this).

(** [this] moved to another start bit and byte order. *)
Definition placedAt (start : Z) (intel : bool) (this : DBC_SIGNAL) : DBC_SIGNAL :=
  mkSignal (name this) start (signalSize this) intel
    (isMultiplexed this) (multiplexValue this) (valType this) (factor this)
    (bias this) (unitName this) (valList this) (parentMessage this)
    (attributes this).

(** The first position of [l] whose entry satisfies [p]. *)
Fixpoint firstIndex {A : Type} (p : A -> bool) (l : list A) : option nat :=
  match l with
  | [] => None
  | a :: l' => if p a then Some O else option_map S (firstIndex p l')
  end.

Module AttributeLookup.

(** Section 4.4 of the specification, in its words: [findByName] is a
    case-insensitive linear scan over the ordered list of pairs,
    [findByIndex] a bounds-checked access. *)
Definition findByName (compare : string -> string -> Z)
    (l : list DBC_ATTRIBUTE_VALUE) (name : string)
    : option DBC_ATTRIBUTE_VALUE :=
  find (fun a => compare (attrName a) name =? 0) l.

Definition findByIndex (l : list DBC_ATTRIBUTE_VALUE) (i : Z)
    : option DBC_ATTRIBUTE_VALUE :=
  if (0 <=? i) && (i <? Z.of_nat (List.length l))
  then nth_error l (Z.to_nat i) else None.

End AttributeLookup.

(** ** Sample definitions and frames *)

Module Sample.

Local Open Scope string_scope.

(** A printer to put in the place of [QString::number]: the decimal
    digits of the integer part. *)
Definition printIntegerPart (x : float) : string :=
  match IEEE.truncate x with
  | Some v => DecimalString.NilZero.string_of_int (Z.to_int v)
  | None => "nan"
  end.

Definition signal (n : string) (start size : Z) (intel : bool)
    (t : DBC_SIG_VAL_TYPE) (mux : option Z) (f b : float) (u : string)
    (vals : list DBC_VAL_ENUM_ENTRY) (parent : msg_ptr) : DBC_SIGNAL :=
  mkSignal n start size intel
    (match mux with Some _ => true | None => false end)
    (match mux with Some v => v | None => 0 end)
    t f b u vals parent [].

(** Message 0: multiplexor [Mode] in byte 0; [Volts] and the text [Tag]
    are present when [Mode] is 0, [Amps] when it is 1. *)
Definition Mode : DBC_SIGNAL :=
  signal "Mode" 0 8 true UNSIGNED_INT None 1 0 "" [] 0%nat.
Definition Volts : DBC_SIGNAL :=
  signal "Volts" 8 8 true UNSIGNED_INT (Some 0) 0.5 2 "V" [] 0%nat.
Definition Amps : DBC_SIGNAL :=
  signal "Amps" 8 8 true UNSIGNED_INT (Some 1) 0.5 2 "A"
    [mkVal 0 "OFF"; mkVal 7 "SEVEN"] 0%nat.
Definition Tag : DBC_SIGNAL :=
  signal "Tag" 16 16 true STRING (Some 0) 1 0 "" [] 0%nat.

(** Message 1 names as its multiplexor a signal that is itself
    multiplexed in message 1. *)
Definition Loop : DBC_SIGNAL :=
  signal "Loop" 0 8 true UNSIGNED_INT (Some 0) 1 0 "" [] 1%nat.

(** Message 2 has no multiplexor. *)
Definition Wide : DBC_SIGNAL :=
  signal "Wide" 20 16 true UNSIGNED_INT None 1 0 "" [] 2%nat.
Definition Label : DBC_SIGNAL :=
  signal "Label" 16 16 true STRING None 1 0 "" [] 2%nat.
Definition Orphan : DBC_SIGNAL :=
  signal "Orphan" 0 16 true STRING (Some 3) 1 0 "" [] 2%nat.
Definition Ratio : DBC_SIGNAL :=
  signal "Ratio" 0 32 true SP_FLOAT None 1 0 "" [] 2%nat.
Definition Gear : DBC_SIGNAL :=
  signal "Gear" 7 32 false SP_FLOAT None 1 0 "" [mkVal 1 "ON"] 2%nat.
Definition GearRaw : DBC_SIGNAL :=
  signal "Gear" 7 32 false SP_FLOAT None 1 0 "" [mkVal 1065353216 "RAW"] 2%nat.
Definition Level : DBC_SIGNAL :=
  signal "Level" 8 64 true DP_FLOAT None 2 1 "m" [] 2%nat.
Definition Lost : DBC_SIGNAL :=
  signal "Lost" 0 8 true UNSIGNED_INT (Some 0) 1 0 "" [] 2%nat.

Definition defs : Defs :=
  mkDefs
    (fun p => match p with
              | 0%nat => Mode | 1%nat => Volts | 2%nat => Amps
              | 3%nat => Tag | _ => Loop
              end)
    (fun p => match p with
              | 0%nat => mkMessage (Some 0%nat) []
              | 1%nat => mkMessage (Some 4%nat) []
              | _ => mkMessage None []
              end).

(** Frames. *)
Definition frameMode1 : CANFrame := mkFrame 4 [x01; x0a; x4f; x4b].
Definition frame3 : CANFrame := mkFrame 3 [x41; x42; x43].
Definition frameEmpty : CANFrame := mkFrame 0 [].
Definition frameOne : CANFrame :=
  mkFrame 8 [x00; x00; x80; x3f; x00; x00; x00; x00].
Definition frameOneBE : CANFrame :=
  mkFrame 8 [x3f; x80; x00; x00; x00; x00; x00; x00].
Definition frame9 : CANFrame :=
  mkFrame 9 [x00; x7f; xe0; x00; x00; x00; x00; x00; x00].

Definition attrs : list DBC_ATTRIBUTE_VALUE :=
  [mkAttr "GenSigStartValue" "0"; mkAttr "CycleTime" "100";
   mkAttr "cycletime" "20"].
Definition attrSignal : DBC_SIGNAL :=
  mkSignal "S" 0 8 true false 0 UNSIGNED_INT 1 0 "" [] 0%nat attrs.
Definition attrMessage : DBC_MESSAGE := mkMessage None attrs.
Definition attrNode : DBC_NODE := mkNode attrs.

End Sample.

(** ** Properties of the decoder *)

Section DecoderProperties.

Variable processIntegerSignal : list byte -> Z -> Z -> bool -> bool -> Z.
Variable QString_number : float -> string.
Variable defs : Defs.

Local Abbreviation asInt := (processAsInt processIntegerSignal defs).
Local Abbreviation asText := (processAsText processIntegerSignal QString_number defs).
Local Abbreviation asDouble := (processAsDouble processIntegerSignal defs).
Local Abbreviation gate := (multiplexGate defs).

(** One level of [processAsInt], for rewriting. *)
Lemma processAsInt_unfold (fuel : nat) (frame : CANFrame) (this : DBC_SIGNAL)
    (outValue : Z) :
  asInt (S fuel) frame this outValue =
  match valType this with
  | STRING | SP_FLOAT | DP_FLOAT => Returns false outValue
  | SIGNED_INT | UNSIGNED_INT =>
      match gate (asInt fuel frame) this with
      | None => OutOfFuel
      | Some false => Returns false outValue
      | Some true =>
          if len frame * 8 <? startBit this + signalSize this then
            Returns false outValue
          else
            Returns true
              (IEEE.int32_of_double
                 (IEEE.double_of_int
                    (Cxx.to_int32
                       (processIntegerSignal (data frame) (startBit this)
                          (signalSize this) (intelByteOrder this)
                          (isSignedType this)))
                  * factor this + bias this)%float)
      end
  end.
Proof. reflexivity. Qed.

(** What a call of [processAsInt] answers does not depend on the value its
    output parameter held, except that a failing call hands it back. *)
Lemma processAsInt_out (fuel : nat) (frame : CANFrame) (this : DBC_SIGNAL)
    (o1 o2 : Z) :
  match asInt fuel frame this o1 with
  | OutOfFuel => asInt fuel frame this o2 = OutOfFuel
  | Returns false v => v = o1 /\ asInt fuel frame this o2 = Returns false o2
  | Returns true v => asInt fuel frame this o2 = Returns true v
  end.
Proof.
  destruct fuel as [|fuel]; [reflexivity|].
  rewrite !processAsInt_unfold.
  destruct (valType this); try (split; reflexivity);
    (destruct (gate (asInt fuel frame) this) as [[|]|];
     [ destruct (len frame * 8 <? startBit this + signalSize this);
       [split; reflexivity | reflexivity]
     | split; reflexivity
     | reflexivity ]).
Qed.

Lemma processAsInt_fails_any (fuel : nat) (frame : CANFrame)
    (this : DBC_SIGNAL) (o1 o2 v : Z) :
  asInt fuel frame this o1 = Returns false v ->
  asInt fuel frame this o2 = Returns false o2.
Proof.
  intros H. pose proof (processAsInt_out fuel frame this o1 o2) as P.
  rewrite H in P. apply P.
Qed.

Lemma processAsInt_succeeds_any (fuel : nat) (frame : CANFrame)
    (this : DBC_SIGNAL) (o1 o2 v : Z) :
  asInt fuel frame this o1 = Returns true v ->
  asInt fuel frame this o2 = Returns true v.
Proof.
  intros H. pose proof (processAsInt_out fuel frame this o1 o2) as P.
  rewrite H in P. exact P.
Qed.

(** *** The multiplex block *)

Lemma gate_not_multiplexed (callInt : DBC_SIGNAL -> Z -> call Z)
    (this : DBC_SIGNAL) :
  isMultiplexed this = false -> gate callInt this = Some true.
Proof. unfold multiplexGate. intros ->. reflexivity. Qed.

Lemma gate_no_multiplexor (callInt : DBC_SIGNAL -> Z -> call Z)
    (this : DBC_SIGNAL) :
  isMultiplexed this = true ->
  multiplexorOf defs this = None ->
  gate callInt this = Some false.
Proof.
  unfold multiplexGate, multiplexorOf. intros -> H.
  destruct (multiplexorSignal (msgAt defs (parentMessage this)));
    [discriminate | reflexivity].
Qed.

Lemma gate_multiplexor_fails (fuel : nat) (frame : CANFrame)
    (this m : DBC_SIGNAL) (v0 v : Z) :
  isMultiplexed this = true ->
  multiplexorOf defs this = Some m ->
  asInt fuel frame m v0 = Returns false v ->
  gate (asInt fuel frame) this = Some false.
Proof.
  unfold multiplexGate, multiplexorOf. intros -> H F.
  destruct (multiplexorSignal (msgAt defs (parentMessage this))) as [p|];
    [|discriminate].
  simpl in H. injection H as <-.
  rewrite (processAsInt_fails_any _ _ _ _ 0 _ F). reflexivity.
Qed.

Lemma gate_multiplexor_value (fuel : nat) (frame : CANFrame)
    (this m : DBC_SIGNAL) (v0 v : Z) :
  isMultiplexed this = true ->
  multiplexorOf defs this = Some m ->
  asInt fuel frame m v0 = Returns true v ->
  gate (asInt fuel frame) this = Some (v =? multiplexValue this).
Proof.
  unfold multiplexGate, multiplexorOf. intros -> H F.
  destruct (multiplexorSignal (msgAt defs (parentMessage this))) as [p|];
    [|discriminate].
  simpl in H. injection H as <-.
  rewrite (processAsInt_succeeds_any _ _ _ _ 0 _ F). reflexivity.
Qed.

(** What each entry point answers once the multiplex block has answered. *)
Lemma processAsInt_gate_fails (fuel : nat) (frame : CANFrame)
    (this : DBC_SIGNAL) (out : Z) :
  gate (asInt fuel frame) this = Some false ->
  asInt (S fuel) frame this out = Returns false out.
Proof.
  intros G. rewrite processAsInt_unfold, G. destruct (valType this); reflexivity.
Qed.

Lemma processAsDouble_gate_fails (fuel : nat) (frame : CANFrame)
    (this : DBC_SIGNAL) (out : float) :
  gate (asInt fuel frame) this = Some false ->
  asDouble fuel frame this out = Returns false out.
Proof.
  intros G. unfold processAsDouble. rewrite G.
  destruct (valType this); reflexivity.
Qed.

Lemma processAsText_gate_fails (fuel : nat) (frame : CANFrame)
    (this : DBC_SIGNAL) (out : string) :
  valType this <> STRING ->
  gate (asInt fuel frame) this = Some false ->
  asText fuel frame this out = Returns false out.
Proof.
  intros T G. unfold processAsText. rewrite G.
  destruct (valType this); solve [reflexivity | contradiction T; reflexivity].
Qed.

Lemma gate_notMultiplexed (callInt : DBC_SIGNAL -> Z -> call Z)
    (this : DBC_SIGNAL) :
  gate callInt (notMultiplexed this) = Some true.
Proof. reflexivity. Qed.

Lemma processAsInt_gate_passes (fuel : nat) (frame : CANFrame)
    (this : DBC_SIGNAL) (out : Z) :
  gate (asInt fuel frame) this = Some true ->
  asInt (S fuel) frame this out = asInt (S fuel) frame (notMultiplexed this) out.
Proof.
  intros G. rewrite !processAsInt_unfold, G, gate_notMultiplexed. reflexivity.
Qed.

Lemma processAsDouble_gate_passes (fuel : nat) (frame : CANFrame)
    (this : DBC_SIGNAL) (out : float) :
  gate (asInt fuel frame) this = Some true ->
  asDouble fuel frame this out = asDouble fuel frame (notMultiplexed this) out.
Proof.
  intros G. unfold processAsDouble. rewrite G, gate_notMultiplexed. reflexivity.
Qed.

Lemma processAsText_gate_passes (fuel : nat) (frame : CANFrame)
    (this : DBC_SIGNAL) (out : string) :
  gate (asInt fuel frame) this = Some true ->
  asText fuel frame this out = asText fuel frame (notMultiplexed this) out.
Proof.
  intros G. unfold processAsText. rewrite G, gate_notMultiplexed. reflexivity.
Qed.

(** *** Entry-point type gating *)

(** C3.  [processAsInt] returns false, whatever the extractor, the frame and
    the multiplexing, for every signal of type STRING, SP_FLOAT or DP_FLOAT.
    [processAsDouble] returns false for every STRING signal, and of the
    value types rejects only STRING: on a signal of any other type that
    passes the multiplex block it succeeds as soon as the frame is long
    enough for that type. *)
Theorem entry_point_type_gating (fuel : nat) (frame : CANFrame)
    (this : DBC_SIGNAL) (outInt : Z) (outDouble : float) :
  (valType this = STRING \/ valType this = SP_FLOAT \/ valType this = DP_FLOAT ->
   asInt (S fuel) frame this outInt = Returns false outInt)
  /\ (valType this = STRING ->
      asDouble fuel frame this outDouble = Returns false outDouble)
  /\ (gate (asInt fuel frame) this = Some true ->
      match valType this with
      | STRING => False
      | SP_FLOAT => startBit this + 32 <= len frame * 8
      | DP_FLOAT => 8 <= len frame
      | SIGNED_INT | UNSIGNED_INT =>
          startBit this + signalSize this <= len frame * 8
      end ->
      exists v, asDouble fuel frame this outDouble = Returns true v).
Proof.
  split; [|split].
  - intros T. rewrite processAsInt_unfold.
    destruct T as [-> | [-> | ->]]; reflexivity.
  - intros T. unfold processAsDouble. rewrite T. reflexivity.
  - intros G L. unfold processAsDouble. rewrite G.
    destruct (valType this); try contradiction.
    + destruct (Z.ltb_spec (len frame * 8) (startBit this + signalSize this));
        [lia | eexists; reflexivity].
    + destruct (Z.ltb_spec (len frame * 8) (startBit this + signalSize this));
        [lia | eexists; reflexivity].
    + destruct (Z.ltb_spec (len frame * 8) (startBit this + 32));
        [lia | eexists; reflexivity].
    + destruct (Z.ltb_spec (len frame) 8); [lia | eexists; reflexivity].
Qed.

(** *** Failure leaves the output parameter alone *)

(** C10.  Whenever [processAsText], [processAsInt] or [processAsDouble]
    returns false, the caller's output parameter holds what it held
    before the call. *)
Theorem failure_leaves_output (fuel : nat) (frame : CANFrame)
    (this : DBC_SIGNAL) (outString : string) (outInt : Z) (outDouble : float) :
  (forall s, asText fuel frame this outString = Returns false s -> s = outString)
  /\ (forall v, asInt fuel frame this outInt = Returns false v -> v = outInt)
  /\ (forall x, asDouble fuel frame this outDouble = Returns false x ->
      x = outDouble).
Proof.
  split; [|split].
  - intros s. unfold processAsText.
    destruct (valType this);
      try (destruct (gate (asInt fuel frame) this) as [[|]|]);
      try (destruct (len frame <? 8));
      intros H; solve [discriminate H | injection H as <-; reflexivity].
  - intros v H.
    pose proof (processAsInt_out fuel frame this outInt outInt) as P.
    rewrite H in P. apply P.
  - intros x. unfold processAsDouble.
    destruct (valType this);
      try (destruct (gate (asInt fuel frame) this) as [[|]|]);
      try (destruct (len frame * 8 <? startBit this + signalSize this));
      try (destruct (len frame * 8 <? startBit this + 32));
      try (destruct (len frame <? 8));
      intros H; solve [discriminate H | injection H as <-; reflexivity].
Qed.

(** *** Multiplex gating *)

(** C1 (as amended).  For a signal with [isMultiplexed] set: [processAsInt]
    and [processAsDouble], and [processAsText] on a signal whose type is
    not STRING, return false when the owning message has no multiplexor,
    when [processAsInt] of the multiplexor on the same frame returns false,
    and when it delivers a value other than the selector of the signal;
    when it delivers the selector, each entry point answers what it answers
    for the same signal without multiplexing.  [processAsText] on a STRING
    signal succeeds without looking at the multiplexor. *)
Theorem multiplex_gating (fuel : nat) (frame : CANFrame) (this : DBC_SIGNAL)
    (outInt : Z) (outDouble : float) (outString : string) :
  isMultiplexed this = true ->
  let fails :=
    asInt (S fuel) frame this outInt = Returns false outInt
    /\ asDouble fuel frame this outDouble = Returns false outDouble
    /\ (valType this <> STRING ->
        asText fuel frame this outString = Returns false outString) in
  (multiplexorOf defs this = None -> fails)
  /\ (forall m v0 v,
        multiplexorOf defs this = Some m ->
        asInt fuel frame m v0 = Returns false v -> fails)
  /\ (forall m v0 v,
        multiplexorOf defs this = Some m ->
        asInt fuel frame m v0 = Returns true v ->
        v <> multiplexValue this -> fails)
  /\ (forall m v0,
        multiplexorOf defs this = Some m ->
        asInt fuel frame m v0 = Returns true (multiplexValue this) ->
        asInt (S fuel) frame this outInt =
          asInt (S fuel) frame (notMultiplexed this) outInt
        /\ asDouble fuel frame this outDouble =
          asDouble fuel frame (notMultiplexed this) outDouble
        /\ asText fuel frame this outString =
          asText fuel frame (notMultiplexed this) outString)
  /\ (valType this = STRING ->
      exists s, asText fuel frame this outString = Returns true s).
Proof.
  intros M fails.
  assert (F : gate (asInt fuel frame) this = Some false -> fails).
  { intros G. repeat split.
    - apply processAsInt_gate_fails, G.
    - apply processAsDouble_gate_fails, G.
    - intros T. apply processAsText_gate_fails; assumption. }
  repeat apply conj.
  - intros N. apply F. apply gate_no_multiplexor; assumption.
  - intros m v0 v N E. apply F. eapply gate_multiplexor_fails; eassumption.
  - intros m v0 v N E D. apply F.
    rewrite (gate_multiplexor_value _ _ _ _ _ _ M N E).
    apply Z.eqb_neq in D. rewrite D. reflexivity.
  - intros m v0 N E.
    pose proof (gate_multiplexor_value _ _ _ _ _ _ M N E) as G.
    rewrite Z.eqb_refl in G. repeat split.
    + apply processAsInt_gate_passes, G.
    + apply processAsDouble_gate_passes, G.
    + apply processAsText_gate_passes, G.
  - intros T. unfold processAsText. rewrite T. eexists. reflexivity.
Qed.

(** *** STRING signals in [processAsText] *)

Lemma stringIndices_length (this : DBC_SIGNAL) :
  List.length (stringIndices this) = Z.to_nat (Cxx.idiv (signalSize this) 8).
Proof. unfold stringIndices. rewrite length_map, length_seq. reflexivity. Qed.

Lemma stringIndices_nth (this : DBC_SIGNAL) (x : nat) :
  (x < Z.to_nat (Cxx.idiv (signalSize this) 8))%nat ->
  nth_error (stringIndices this) x =
  Some (Cxx.idiv (startBit this) 8 + Z.of_nat x).
Proof.
  intros H. unfold stringIndices.
  rewrite nth_error_map, nth_error_seq.
  destruct (Nat.ltb_spec x (Z.to_nat (Cxx.idiv (signalSize this) 8))); [|lia].
  reflexivity.
Qed.

(** C5 (as amended).  For every STRING signal, multiplexed or not and
    whatever the multiplexor of its message decodes to, [processAsText]
    returns true with the text made of the [signalSize/8] bytes
    [data[startBit/8 + x]], [0 <= x < signalSize/8]: no multiplex check is
    made on this path. *)
Theorem string_text_is_ungated (fuel : nat) (frame : CANFrame)
    (this : DBC_SIGNAL) (outString : string) :
  valType this = STRING ->
  asText fuel frame this outString =
    Returns true (QStr.of_bytes (map (byteAt (data frame)) (stringIndices this)))
  /\ List.length (stringIndices this) = Z.to_nat (Cxx.idiv (signalSize this) 8)
  /\ (forall x : nat,
        (x < Z.to_nat (Cxx.idiv (signalSize this) 8))%nat ->
        nth_error (stringIndices this) x =
        Some (Cxx.idiv (startBit this) 8 + Z.of_nat x)).
Proof.
  intros T. split; [|split].
  - unfold processAsText. rewrite T. reflexivity.
  - apply stringIndices_length.
  - apply stringIndices_nth.
Qed.

(** *** Floating-point signals *)

Lemma gate_placedAt (callInt : DBC_SIGNAL -> Z -> call Z) (start : Z)
    (intel : bool) (this : DBC_SIGNAL) :
  gate callInt (placedAt start intel this) = gate callInt this.
Proof. reflexivity. Qed.

(** C6 (as amended).  For every SP_FLOAT signal whose multiplex block lets
    it through, [processAsDouble] returns false when
    [len*8 < startBit + 32]; otherwise it extracts 32 bits, unsigned, from
    the configured [startBit] with the byte-order argument of the extractor
    fixed to [false] (not Intel, i.e. MOTOROLA) whatever byte order the
    signal is configured with, reads the 32-bit pattern as a binary32
    value and returns it times [factor] plus [bias]. *)
Theorem single_float_decode (fuel : nat) (frame : CANFrame)
    (this : DBC_SIGNAL) (outDouble : float) :
  valType this = SP_FLOAT ->
  gate (asInt fuel frame) this = Some true ->
  (len frame * 8 < startBit this + 32 ->
   asDouble fuel frame this outDouble = Returns false outDouble)
  /\ (startBit this + 32 <= len frame * 8 ->
      asDouble fuel frame this outDouble =
      Returns true
        (IEEE.float_of_bits
           (Cxx.to_int64
              (processIntegerSignal (data frame) (startBit this) 32 false false))
         * factor this + bias this)%float)
  /\ (forall intel : bool,
        asDouble fuel frame (placedAt (startBit this) intel this) outDouble =
        asDouble fuel frame this outDouble).
Proof.
  intros T G. split; [|split].
  - intros L. unfold processAsDouble. rewrite T, G.
    destruct (Z.ltb_spec (len frame * 8) (startBit this + 32)); [reflexivity | lia].
  - intros L. unfold processAsDouble. rewrite T, G.
    destruct (Z.ltb_spec (len frame * 8) (startBit this + 32)); [lia | reflexivity].
  - intros intel. unfold processAsDouble. rewrite gate_placedAt.
    simpl. rewrite T. reflexivity.
Qed.

(** C4.  For every DP_FLOAT signal, once the multiplex block has answered:
    [processAsDouble] and [processAsText] return false when the frame has
    fewer than 8 bytes; when it has 8 or more and the block lets the signal
    through, both extract 64 bits from bit 0 with the byte-order argument
    [false], read them as a binary64 value and scale it by [factor] and
    [bias]; the configured [startBit] and byte order have no influence. *)
Theorem double_float_whole_frame (fuel : nat) (frame : CANFrame)
    (this : DBC_SIGNAL) (outDouble : float) (outString : string) (pass : bool) :
  valType this = DP_FLOAT ->
  gate (asInt fuel frame) this = Some pass ->
  let bits :=
    Cxx.to_int64 (processIntegerSignal (data frame) 0 64 false false) in
  let scaled := (IEEE.double_of_bits bits * factor this + bias this)%float in
  (len frame < 8 ->
   asDouble fuel frame this outDouble = Returns false outDouble
   /\ asText fuel frame this outString = Returns false outString)
  /\ (8 <= len frame -> pass = true ->
      asDouble fuel frame this outDouble = Returns true scaled
      /\ asText fuel frame this outString =
         Returns true (outputString QString_number this bits scaled))
  /\ (forall (start : Z) (intel : bool),
        asDouble fuel frame (placedAt start intel this) outDouble =
        asDouble fuel frame this outDouble
        /\ asText fuel frame (placedAt start intel this) outString =
           asText fuel frame this outString).
Proof.
  intros T G bits scaled. split; [|split].
  - intros L. unfold processAsDouble, processAsText. rewrite T, G.
    destruct (Z.ltb_spec (len frame) 8); [|lia].
    destruct pass; split; reflexivity.
  - intros L ->. unfold processAsDouble, processAsText. rewrite T, G.
    destruct (Z.ltb_spec (len frame) 8); [lia|].
    split; reflexivity.
  - intros start intel. unfold processAsDouble, processAsText.
    rewrite gate_placedAt. simpl. rewrite T. split; reflexivity.
Qed.

(** *** The text of a numeric signal *)

(** On the integer types the value table is searched for the scaled value,
    truncated to an integer. *)
Lemma processAsText_integer (fuel : nat) (frame : CANFrame)
    (this : DBC_SIGNAL) (outString : string) :
  valType this = SIGNED_INT \/ valType this = UNSIGNED_INT ->
  gate (asInt fuel frame) this = Some true ->
  let raw :=
    Cxx.to_int64
      (processIntegerSignal (data frame) (startBit this) (signalSize this)
         (intelByteOrder this) (isSignedType this)) in
  let scaled := (IEEE.double_of_int raw * factor this + bias this)%float in
  asText fuel frame this outString =
  Returns true
    (outputString QString_number this (IEEE.int64_of_double scaled) scaled).
Proof.
  intros T G raw scaled. unfold processAsText. rewrite G.
  destruct T as [T | T]; rewrite T; reflexivity.
Qed.

(** On SP_FLOAT it is searched for the extracted 32-bit pattern. *)
Lemma processAsText_single_float (fuel : nat) (frame : CANFrame)
    (this : DBC_SIGNAL) (outString : string) :
  valType this = SP_FLOAT ->
  gate (asInt fuel frame) this = Some true ->
  let raw :=
    Cxx.to_int64
      (processIntegerSignal (data frame) (startBit this) 32 false false) in
  let scaled := (IEEE.float_of_bits raw * factor this + bias this)%float in
  asText fuel frame this outString =
  Returns true (outputString QString_number this raw scaled).
Proof.
  intros T G raw scaled. unfold processAsText. rewrite G, T. reflexivity.
Qed.

(** [outputString] prints the description of the first entry of the value
    table whose value is [result], and the number and the unit when there
    is none. *)
Lemma findVal_first (l : list DBC_VAL_ENUM_ENTRY) (result : Z) :
  findVal l result =
  option_map descript (find (fun e => value e =? result) l).
Proof.
  induction l as [|e l IH]; simpl; [reflexivity|].
  destruct (value e =? result); [reflexivity | exact IH].
Qed.

Lemma outputString_cases (this : DBC_SIGNAL) (result : Z) (endResult : float) :
  outputString QString_number this result endResult =
  match find (fun e => value e =? result) (valList this) with
  | Some e => (name this ++ ": " ++ descript e)%string
  | None =>
      (name this ++ ": " ++ QString_number endResult ++ unitName this)%string
  end.
Proof.
  assert (A : forall a b c : string,
             ((a ++ b) ++ c = a ++ b ++ c)%string).
  { intros a b c. induction a as [|x a IH]; simpl; [reflexivity | now rewrite IH]. }
  unfold outputString. rewrite findVal_first.
  destruct (valList this) as [|e l]; simpl; [apply A|].
  destruct (value e =? result); simpl; [apply A|].
  destruct (find (fun e0 => value e0 =? result) l); simpl; apply A.
Qed.

(** *** Termination of multiplex resolution *)

Lemma processAsInt_runs_out (fuel : nat) (frame : CANFrame) :
  forall (this : DBC_SIGNAL) (out : Z),
    asInt fuel frame this out = OutOfFuel <-> nests defs fuel this = true.
Proof.
  induction fuel as [|fuel IH]; intros this out.
  - simpl. split; reflexivity.
  - rewrite processAsInt_unfold. simpl nests.
    unfold nestedSignal, multiplexGate.
    destruct (valType this); try (split; discriminate);
      (destruct (isMultiplexed this);
       [ destruct (multiplexorSignal (msgAt defs (parentMessage this))) as [p|];
         simpl; [|split; discriminate];
         specialize (IH (sigAt defs p) 0);
         destruct (asInt fuel frame (sigAt defs p) 0) as [|[|] v];
         [ split; [intros _; apply IH; reflexivity | reflexivity]
         | split;
           [ destruct (v =? multiplexValue this);
             [destruct (len frame * 8 <? startBit this + signalSize this)|];
             discriminate
           | intros N; apply IH in N; discriminate N ]
         | split; [discriminate | intros N; apply IH in N; discriminate N] ]
       | destruct (len frame * 8 <? startBit this + signalSize this);
         split; discriminate ]).
Qed.

Lemma nests_antitone (n k : nat) :
  forall this : DBC_SIGNAL,
    nests defs n this = false -> nests defs (n + k) this = false.
Proof.
  induction n as [|n IH]; intros this; simpl; [discriminate|].
  destruct (nestedSignal defs this) as [m|]; [apply IH | reflexivity].
Qed.

Lemma processAsInt_returns (d fuel : nat) (frame : CANFrame)
    (this : DBC_SIGNAL) (out : Z) :
  nests defs d this = false -> (d <= fuel)%nat ->
  exists ok v, asInt fuel frame this out = Returns ok v.
Proof.
  intros N L.
  assert (E : nests defs fuel this = false).
  { replace fuel with (d + (fuel - d))%nat by lia. apply nests_antitone, N. }
  destruct (asInt fuel frame this out) as [|ok v] eqn:R.
  - apply processAsInt_runs_out in R. congruence.
  - exists ok, v. reflexivity.
Qed.

Lemma block_runs_out (fuel : nat) (frame : CANFrame) (this : DBC_SIGNAL) :
  valType this <> STRING ->
  (gate (asInt fuel frame) this = None <-> blockNests defs fuel this = true).
Proof.
  intros T. unfold blockNests, multiplexGate, multiplexorOf.
  replace (negb (valType_eqb (valType this) STRING)) with true
    by (destruct (valType this); solve [reflexivity | contradiction T; reflexivity]).
  destruct (isMultiplexed this); simpl; [|split; discriminate].
  destruct (multiplexorSignal (msgAt defs (parentMessage this))) as [p|];
    simpl; [|split; discriminate].
  pose proof (processAsInt_runs_out fuel frame (sigAt defs p) 0) as I.
  destruct (asInt fuel frame (sigAt defs p) 0) as [|[|] v].
  - split; [intros _; apply I; reflexivity | reflexivity].
  - split; [discriminate | intros N; apply I in N; discriminate N].
  - split; [discriminate | intros N; apply I in N; discriminate N].
Qed.

Lemma blockNests_STRING (n : nat) (this : DBC_SIGNAL) :
  valType this = STRING -> blockNests defs n this = false.
Proof. intros T. unfold blockNests. rewrite T. reflexivity. Qed.

Lemma processAsDouble_runs_out (fuel : nat) (frame : CANFrame)
    (this : DBC_SIGNAL) (out : float) :
  asDouble fuel frame this out = OutOfFuel <-> blockNests defs fuel this = true.
Proof.
  destruct (valType this) eqn:T;
    try (apply (iff_trans (B := gate (asInt fuel frame) this = None));
         [|apply block_runs_out; rewrite T; discriminate];
         unfold processAsDouble; rewrite T;
         destruct (gate (asInt fuel frame) this) as [[|]|];
         try (destruct (len frame * 8 <? startBit this + signalSize this));
         try (destruct (len frame * 8 <? startBit this + 32));
         try (destruct (len frame <? 8));
         split; solve [discriminate | reflexivity]).
  rewrite (blockNests_STRING _ _ T). unfold processAsDouble. rewrite T.
  split; discriminate.
Qed.

Lemma processAsText_runs_out (fuel : nat) (frame : CANFrame)
    (this : DBC_SIGNAL) (out : string) :
  asText fuel frame this out = OutOfFuel <-> blockNests defs fuel this = true.
Proof.
  destruct (valType this) eqn:T;
    try (apply (iff_trans (B := gate (asInt fuel frame) this = None));
         [|apply block_runs_out; rewrite T; discriminate];
         unfold processAsText; rewrite T;
         destruct (gate (asInt fuel frame) this) as [[|]|];
         try (destruct (len frame <? 8));
         split; solve [discriminate | reflexivity]).
  rewrite (blockNests_STRING _ _ T). unfold processAsText. rewrite T.
  split; discriminate.
Qed.

Lemma blockNests_antitone (n k : nat) (this : DBC_SIGNAL) :
  blockNests defs n this = false -> blockNests defs (n + k) this = false.
Proof.
  unfold blockNests.
  destruct (negb (valType_eqb (valType this) STRING) && isMultiplexed this);
    [|reflexivity].
  destruct (multiplexorOf defs this) as [m|]; [|reflexivity].
  simpl. apply nests_antitone.
Qed.

(** C8 (as amended).  The recursion has no depth bound and no set of
    visited signals.  A call of [processAsInt] nests exactly as deep as the
    chain of multiplexors that starts at its signal is long, whatever the
    frame holds: with room for [fuel] nested calls it fails to return
    exactly when the chain is at least [fuel] long, and so do
    [processAsText] and [processAsDouble] for the chain behind their
    multiplex block.  Hence every decode call on a finite chain returns,
    and a call on a cyclic chain never does. *)
Theorem decode_returns_iff_chain_ends (fuel : nat) (frame : CANFrame)
    (this : DBC_SIGNAL) (outInt : Z) (outDouble : float) (outString : string) :
  (asInt fuel frame this outInt = OutOfFuel <-> nests defs fuel this = true)
  /\ (asDouble fuel frame this outDouble = OutOfFuel <->
      blockNests defs fuel this = true)
  /\ (asText fuel frame this outString = OutOfFuel <->
      blockNests defs fuel this = true)
  /\ (forall d : nat,
        nests defs d this = false -> (d <= fuel)%nat ->
        exists ok v, asInt fuel frame this outInt = Returns ok v)
  /\ (forall d : nat,
        blockNests defs d this = false -> (d <= fuel)%nat ->
        (exists ok v, asDouble fuel frame this outDouble = Returns ok v)
        /\ (exists ok s, asText fuel frame this outString = Returns ok s)).
Proof.
  split; [apply processAsInt_runs_out|].
  split; [apply processAsDouble_runs_out|].
  split; [apply processAsText_runs_out|].
  split; [intros d; apply processAsInt_returns|].
  intros d N L.
  assert (E : blockNests defs fuel this = false).
  { replace fuel with (d + (fuel - d))%nat by lia.
    apply blockNests_antitone, N. }
  split.
  - destruct (asDouble fuel frame this outDouble) as [|ok v] eqn:R.
    + apply processAsDouble_runs_out in R. congruence.
    + exists ok, v. reflexivity.
  - destruct (asText fuel frame this outString) as [|ok v] eqn:R.
    + apply processAsText_runs_out in R. congruence.
    + exists ok, v. reflexivity.
Qed.

(** *** Short frames *)

(** [processAsInt] checks the frame length after the multiplex block. *)
Lemma processAsInt_short_frame (fuel : nat) (frame : CANFrame)
    (this : DBC_SIGNAL) (out : Z) (pass : bool) :
  gate (asInt fuel frame) this = Some pass ->
  len frame * 8 < startBit this + signalSize this ->
  asInt (S fuel) frame this out = Returns false out.
Proof.
  intros G L. rewrite processAsInt_unfold, G.
  destruct (Z.ltb_spec (len frame * 8) (startBit this + signalSize this)); [|lia].
  destruct (valType this), pass; reflexivity.
Qed.

(** So does [processAsDouble], with the length that each type extracts. *)
Lemma processAsDouble_short_frame (fuel : nat) (frame : CANFrame)
    (this : DBC_SIGNAL) (out : float) (pass : bool) :
  gate (asInt fuel frame) this = Some pass ->
  match valType this with
  | SIGNED_INT | UNSIGNED_INT =>
      len frame * 8 < startBit this + signalSize this
  | SP_FLOAT => len frame * 8 < startBit this + 32
  | DP_FLOAT => len frame < 8
  | STRING => True
  end ->
  asDouble fuel frame this out = Returns false out.
Proof.
  intros G L. unfold processAsDouble. rewrite G.
  destruct (valType this); try reflexivity.
  - destruct (Z.ltb_spec (len frame * 8) (startBit this + signalSize this));
      [|lia]. destruct pass; reflexivity.
  - destruct (Z.ltb_spec (len frame * 8) (startBit this + signalSize this));
      [|lia]. destruct pass; reflexivity.
  - destruct (Z.ltb_spec (len frame * 8) (startBit this + 32)); [|lia].
    destruct pass; reflexivity.
  - destruct (Z.ltb_spec (len frame) 8); [|lia]. destruct pass; reflexivity.
Qed.

(** [processAsText] succeeds on every integer, SP_FLOAT and STRING signal
    that its multiplex block lets through, whatever the length of the
    frame. *)
Lemma processAsText_any_length (fuel : nat) (frame : CANFrame)
    (this : DBC_SIGNAL) (out : string) :
  valType this <> DP_FLOAT ->
  gate (asInt fuel frame) this = Some true ->
  exists s, asText fuel frame this out = Returns true s.
Proof.
  intros T G. unfold processAsText. rewrite G.
  destruct (valType this); try (eexists; reflexivity).
  contradiction T. reflexivity.
Qed.

End DecoderProperties.

(** ** Properties of the attribute lookups *)

Section AttributeProperties.

Variable compare : string -> string -> Z.

Lemma firstIndex_Some {A : Type} (p : A -> bool) (l : list A) :
  forall k : nat,
    firstIndex p l = Some k <->
    (exists a, nth_error l k = Some a /\ p a = true)
    /\ (forall j a, (j < k)%nat -> nth_error l j = Some a -> p a = false).
Proof.
  induction l as [|x l IH]; intros k; simpl.
  - split; [discriminate|].
    intros [[a [H _]] _]. destruct k; discriminate H.
  - destruct (p x) eqn:Px.
    + split.
      * intros E. injection E as <-. split.
        -- exists x. split; [reflexivity | exact Px].
        -- intros j a L. lia.
      * intros [_ F]. destruct k as [|k]; [reflexivity|].
        specialize (F O x (Nat.lt_0_succ k) eq_refl). congruence.
    + destruct k as [|k].
      * split.
        -- destruct (firstIndex p l); discriminate.
        -- intros [[a [H Pa]] _]. simpl in H. injection H as <-. congruence.
      * specialize (IH k). split.
        -- intros E. destruct (firstIndex p l) as [k'|]; [|discriminate].
           simpl in E. injection E as ->.
           destruct IH as [[Ex F] _]; [reflexivity|]. split; [exact Ex|].
           intros [|j] a L H; simpl in H.
           ++ injection H as <-. exact Px.
           ++ apply (F j a); [lia | exact H].
        -- intros [Ex F].
           assert (E : firstIndex p l = Some k).
           { apply IH. split; [exact Ex|].
             intros j a L H. apply (F (S j) a); [lia | exact H]. }
           rewrite E. reflexivity.
Qed.

Lemma firstIndex_None {A : Type} (p : A -> bool) (l : list A) :
  firstIndex p l = None <-> (forall a, In a l -> p a = false).
Proof.
  induction l as [|x l IH]; simpl.
  - split; [intros _ a [] | reflexivity].
  - destruct (p x) eqn:Px.
    + split; [discriminate|]. intros F. specialize (F x (or_introl eq_refl)).
      congruence.
    + destruct (firstIndex p l) as [k|]; simpl.
      * split; [discriminate|]. intros F.
        destruct IH as [_ IH]. discriminate IH. intros a I. apply F. now right.
      * split; [|reflexivity]. intros _ a [<- | I]; [exact Px|].
        destruct IH as [IH _]. now apply IH.
Qed.

Lemma find_firstIndex {A : Type} (p : A -> bool) (l : list A) :
  find p l =
  match firstIndex p l with
  | Some k => nth_error l k
  | None => None
  end.
Proof.
  induction l as [|x l IH]; simpl; [reflexivity|].
  destruct (p x); [reflexivity|]. rewrite IH.
  destruct (firstIndex p l); reflexivity.
Qed.

(** The loop returns the first position, counted from [i], whose name
    compares equal. *)
Lemma scanFrom_firstIndex (l : list DBC_ATTRIBUTE_VALUE) (name : string) :
  forall i : Z,
    scanFrom compare l name i =
    option_map (fun k => i + Z.of_nat k)
      (firstIndex (fun a => compare (attrName a) name =? 0) l).
Proof.
  induction l as [|a l IH]; intros i; simpl; [reflexivity|].
  destruct (compare (attrName a) name =? 0); simpl.
  - f_equal. lia.
  - rewrite IH.
    destruct (firstIndex (fun a0 => compare (attrName a0) name =? 0) l);
      simpl; [f_equal; lia | reflexivity].
Qed.

Lemma findAttrValByName_firstIndex (this : DBC_SIGNAL) (name : string) :
  DBC_SIGNAL_findAttrValByName compare this name =
  option_map Z.of_nat
    (firstIndex (fun a => compare (attrName a) name =? 0) (attributes this)).
Proof.
  unfold DBC_SIGNAL_findAttrValByName. rewrite scanFrom_firstIndex.
  destruct (attributes this) as [|a l]; [reflexivity|].
  simpl (Z.of_nat _ =? 0).
  destruct (firstIndex _ (a :: l)); reflexivity.
Qed.

(** C9.  On equal attribute lists the lookups of [DBC_SIGNAL],
    [DBC_MESSAGE] and [DBC_NODE] return the same.  [findAttrValByName]
    returns the pointer to the first entry, in list order, whose name
    compares equal to the argument without regard to case, and NULL when
    no entry does; [findAttrValByIdx] returns the pointer to entry [idx]
    exactly when [0 <= idx < length], and NULL otherwise.  Both agree with
    the lookups of section 4.4. *)
Theorem attribute_lookup_uniform (s : DBC_SIGNAL) (m : DBC_MESSAGE)
    (n : DBC_NODE) (name : string) (idx : Z) :
  msg_attributes m = attributes s ->
  node_attributes n = attributes s ->
  let l := attributes s in
  let matches := fun a : DBC_ATTRIBUTE_VALUE => compare (attrName a) name = 0 in
  (DBC_MESSAGE_findAttrValByName compare m name =
     DBC_SIGNAL_findAttrValByName compare s name
   /\ DBC_NODE_findAttrValByName compare n name =
     DBC_SIGNAL_findAttrValByName compare s name
   /\ DBC_MESSAGE_findAttrValByIdx m idx = DBC_SIGNAL_findAttrValByIdx s idx
   /\ DBC_NODE_findAttrValByIdx n idx = DBC_SIGNAL_findAttrValByIdx s idx)
  /\ (forall i : Z,
        DBC_SIGNAL_findAttrValByName compare s name = Some i <->
        0 <= i
        /\ (exists a, nth_error l (Z.to_nat i) = Some a /\ matches a)
        /\ (forall j a, (j < Z.to_nat i)%nat -> nth_error l j = Some a ->
                        ~ matches a))
  /\ (DBC_SIGNAL_findAttrValByName compare s name = None <->
      forall a, In a l -> ~ matches a)
  /\ deref l (DBC_SIGNAL_findAttrValByName compare s name) =
     AttributeLookup.findByName compare l name
  /\ (forall i : Z,
        DBC_SIGNAL_findAttrValByIdx s idx = Some i <->
        0 <= idx < Z.of_nat (List.length l) /\ i = idx)
  /\ (DBC_SIGNAL_findAttrValByIdx s idx = None <->
      ~ 0 <= idx < Z.of_nat (List.length l))
  /\ deref l (DBC_SIGNAL_findAttrValByIdx s idx) =
     AttributeLookup.findByIndex l idx.
Proof.
  intros Hm Hn l matches.
  split; [|split; [|split; [|split; [|split; [|split]]]]].
  - unfold DBC_MESSAGE_findAttrValByName, DBC_NODE_findAttrValByName,
      DBC_MESSAGE_findAttrValByIdx, DBC_NODE_findAttrValByIdx.
    rewrite Hm, Hn. repeat split; reflexivity.
  - intros i. rewrite findAttrValByName_firstIndex. fold l.
    set (p := fun a : DBC_ATTRIBUTE_VALUE => compare (attrName a) name =? 0).
    assert (Pm : forall a, p a = true <-> matches a)
      by (intros a; apply Z.eqb_eq).
    assert (Pn : forall a, p a = false <-> ~ matches a)
      by (intros a; apply Z.eqb_neq).
    split.
    + intros E. destruct (firstIndex p l) as [k|] eqn:F; [|discriminate].
      simpl in E. injection E as <-. rewrite Nat2Z.id.
      apply firstIndex_Some in F. destruct F as [[a [Ha Pa]] F].
      split; [lia|]. split.
      * exists a. split; [exact Ha | now apply Pm].
      * intros j b L Hb. apply Pn. now apply (F j b).
    + intros [I [[a [Ha Ma]] F]].
      assert (E : firstIndex p l = Some (Z.to_nat i)).
      { apply firstIndex_Some. split.
        - exists a. split; [exact Ha | now apply Pm].
        - intros j b L Hb. apply Pn. now apply (F j b). }
      rewrite E. simpl. f_equal. lia.
  - rewrite findAttrValByName_firstIndex. fold l.
    set (p := fun a : DBC_ATTRIBUTE_VALUE => compare (attrName a) name =? 0).
    split.
    + intros E a I. apply Z.eqb_neq.
      destruct (firstIndex p l) eqn:F; [discriminate|].
      now apply (proj1 (firstIndex_None p l) F a).
    + intros F. replace (firstIndex p l) with (@None nat); [reflexivity|].
      symmetry. apply firstIndex_None. intros a I. apply Z.eqb_neq. now apply F.
  - rewrite findAttrValByName_firstIndex. fold l.
    unfold AttributeLookup.findByName. rewrite find_firstIndex.
    destruct (firstIndex _ l) as [k|]; simpl; [|reflexivity].
    destruct (Z.ltb_spec (Z.of_nat k) 0); [lia|]. now rewrite Nat2Z.id.
  - intros i. unfold DBC_SIGNAL_findAttrValByIdx. fold l.
    destruct (Z.ltb_spec idx 0).
    + split; [discriminate | lia].
    + destruct (Z.geb_spec idx (Z.of_nat (List.length l))).
      * split; [discriminate | lia].
      * split; [intros E; injection E as <-; lia | intros [_ ->]; reflexivity].
  - unfold DBC_SIGNAL_findAttrValByIdx. fold l.
    destruct (Z.ltb_spec idx 0); [split; [lia | reflexivity]|].
    destruct (Z.geb_spec idx (Z.of_nat (List.length l)));
      [split; [lia | reflexivity]|].
    split; [discriminate | lia].
  - unfold DBC_SIGNAL_findAttrValByIdx, AttributeLookup.findByIndex. fold l.
    destruct (Z.ltb_spec idx 0).
    + destruct (Z.leb_spec 0 idx); [lia | reflexivity].
    + destruct (Z.geb_spec idx (Z.of_nat (List.length l))).
      * destruct (Z.leb_spec 0 idx); [|lia].
        destruct (Z.ltb_spec idx (Z.of_nat (List.length l))); [lia | reflexivity].
      * simpl. destruct (Z.ltb_spec idx 0); [lia|].
        destruct (Z.leb_spec 0 idx); [|lia].
        destruct (Z.ltb_spec idx (Z.of_nat (List.length l))); [reflexivity | lia].
Qed.

End AttributeProperties.

(** ** The properties at sample inputs *)

Section Samples.

Import Sample.
Local Open Scope string_scope.

Local Abbreviation pis := Utility.processIntegerSignal.
Local Abbreviation num := printIntegerPart.

(** The type checks on the text [Tag] and on the SP_FLOAT signal [Ratio]. *)
Lemma entry_point_type_gating_witness :
  processAsInt pis defs 1 frameMode1 Tag 99 = Returns false 99
  /\ processAsDouble pis defs 1 frameMode1 Tag 0.5 = Returns false 0.5%float
  /\ exists v, processAsDouble pis defs 1 frameOne Ratio 0 = Returns true v.
Proof.
  split; [|split].
  - apply (proj1 (entry_point_type_gating pis defs 0 frameMode1 Tag 99 0)).
    left. reflexivity.
  - apply (proj1 (proj2 (entry_point_type_gating pis defs 1 frameMode1 Tag 0 0.5))).
    reflexivity.
  - apply (proj2 (proj2 (entry_point_type_gating pis defs 1 frameOne Ratio 0 0))).
    + reflexivity.
    + simpl. lia.
Defined.

(** Three failing calls: a selector mismatch in [processAsText] and in
    [processAsInt], a short frame in [processAsDouble]. *)
Lemma failure_leaves_output_witness :
  (exists s, processAsText pis num defs 1 frameMode1 Volts "old" = Returns false s
             /\ s = "old")
  /\ (exists v, processAsInt pis defs 2 frameMode1 Volts 9 = Returns false v
                /\ v = 9)
  /\ (exists x, processAsDouble pis defs 1 frame3 Wide 0.5 = Returns false x
                /\ x = 0.5%float).
Proof.
  split; [|split].
  - exists "old". split; [vm_compute; reflexivity|].
    apply (proj1 (failure_leaves_output pis num defs 1 frameMode1 Volts "old" 9 0.5)).
    vm_compute. reflexivity.
  - exists 9. split; [vm_compute; reflexivity|].
    apply (proj1 (proj2
             (failure_leaves_output pis num defs 2 frameMode1 Volts "old" 9 0.5))).
    vm_compute. reflexivity.
  - exists 0.5%float. split; [vm_compute; reflexivity|].
    apply (proj2 (proj2
             (failure_leaves_output pis num defs 1 frame3 Wide "old" 9 0.5))).
    vm_compute. reflexivity.
Defined.

(** C1 as stated fails on a multiplexed STRING signal in a message
    without multiplexor: [processAsText] returns true. *)
Lemma multiplex_gating_not_for_string :
  isMultiplexed Orphan = true
  /\ multiplexorSignal (msgAt defs (parentMessage Orphan)) = None
  /\ processAsText pis num defs 1 frame3 Orphan "old" = Returns true "AB".
Proof. repeat split. Qed.

(** The four cases of the multiplex block: no multiplexor ([Lost]), a
    multiplexor that fails to decode (empty frame), a selector mismatch
    ([Volts] when [Mode] is 1) and a match ([Amps]). *)
Lemma multiplex_gating_witness :
  (processAsInt pis defs 1 frame3 Lost 9 = Returns false 9
   /\ processAsDouble pis defs 0 frame3 Lost 0.5 = Returns false 0.5%float
   /\ processAsText pis num defs 0 frame3 Lost "old" = Returns false "old")
  /\ (processAsInt pis defs 2 frameEmpty Amps 9 = Returns false 9
      /\ processAsDouble pis defs 1 frameEmpty Amps 0.5 = Returns false 0.5%float
      /\ processAsText pis num defs 1 frameEmpty Amps "old" = Returns false "old")
  /\ (processAsInt pis defs 2 frameMode1 Volts 9 = Returns false 9
      /\ processAsDouble pis defs 1 frameMode1 Volts 0.5 = Returns false 0.5%float
      /\ processAsText pis num defs 1 frameMode1 Volts "old" = Returns false "old")
  /\ (processAsInt pis defs 2 frameMode1 Amps 9 =
        processAsInt pis defs 2 frameMode1 (notMultiplexed Amps) 9
      /\ processAsDouble pis defs 1 frameMode1 Amps 0.5 =
        processAsDouble pis defs 1 frameMode1 (notMultiplexed Amps) 0.5
      /\ processAsText pis num defs 1 frameMode1 Amps "old" =
        processAsText pis num defs 1 frameMode1 (notMultiplexed Amps) "old").
Proof.
  split; [|split; [|split]].
  - destruct (multiplex_gating pis num defs 0 frame3 Lost 9 0.5 "old" eq_refl)
      as (H & _).
    destruct (H eq_refl) as (A & B & C).
    split; [exact A | split; [exact B | apply C; discriminate]].
  - destruct (multiplex_gating pis num defs 1 frameEmpty Amps 9 0.5 "old" eq_refl)
      as (_ & H & _).
    destruct (H Mode 0 0 eq_refl eq_refl) as (A & B & C).
    split; [exact A | split; [exact B | apply C; discriminate]].
  - destruct (multiplex_gating pis num defs 1 frameMode1 Volts 9 0.5 "old" eq_refl)
      as (_ & _ & H & _).
    assert (D : 1 <> multiplexValue Volts) by discriminate.
    destruct (H Mode 0 1 eq_refl eq_refl D) as (A & B & C).
    split; [exact A | split; [exact B | apply C; discriminate]].
  - destruct (multiplex_gating pis num defs 1 frameMode1 Amps 9 0.5 "old" eq_refl)
      as (_ & _ & _ & H & _).
    exact (H Mode 0 eq_refl eq_refl).
Defined.

(** C5 as stated fails on [Tag], multiplexed with selector 0: on a
    frame whose multiplexor decodes to 1, [processAsText] still returns
    its text. *)
Lemma string_text_selector_mismatch :
  valType Tag = STRING
  /\ isMultiplexed Tag = true
  /\ multiplexValue Tag = 0
  /\ multiplexorOf defs Tag = Some Mode
  /\ processAsInt pis defs 1 frameMode1 Mode 0 = Returns true 1
  /\ processAsText pis num defs 1 frameMode1 Tag "old" = Returns true "OK".
Proof. repeat split. Qed.

(** The text of [Tag] is bytes 2 and 3 of the frame. *)
Lemma string_text_is_ungated_witness :
  processAsText pis num defs 1 frameMode1 Tag "old" = Returns true "OK"
  /\ List.length (stringIndices Tag) = 2%nat
  /\ nth_error (stringIndices Tag) 1 = Some 3.
Proof.
  destruct (string_text_is_ungated pis num defs 1 frameMode1 Tag "old" eq_refl)
    as (A & B & C).
  split; [exact A | split; [exact B|]].
  apply (C 1%nat). simpl. lia.
Defined.

(** C6 as stated fails on [Ratio], configured for Intel order.
    Extracted in that order the frame holds the pattern of 1.0;
    [processAsDouble] returns another value, the one of the pattern
    found in MOTOROLA order. *)
Lemma single_float_ignores_byte_order :
  valType Ratio = SP_FLOAT
  /\ intelByteOrder Ratio = true
  /\ isMultiplexed Ratio = false
  /\ startBit Ratio + 32 <= len frameOne * 8
  /\ (IEEE.float_of_bits
        (Cxx.to_int64
           (pis (data frameOne) (startBit Ratio) 32 (intelByteOrder Ratio) false))
      * factor Ratio + bias Ratio)%float = 1%float
  /\ processAsDouble pis defs 1 frameOne Ratio 0 = Returns true 0x1.007ep-127%float
  /\ processAsDouble pis defs 1 frameOne Ratio 0 <> Returns true 1%float.
Proof.
  repeat split; try (vm_compute; reflexivity).
  - simpl. lia.
  - intros H.
    apply (f_equal (fun c => match c with
                             | Returns _ x => PrimFloat.eqb x 1
                             | OutOfFuel => false
                             end)) in H.
    vm_compute in H. discriminate H.
Qed.

(** [Gear] holds the pattern of 1.0 in MOTOROLA order; configuring it for
    Intel order changes nothing; a 3-byte frame is too short. *)
Lemma single_float_decode_witness :
  processAsDouble pis defs 1 frameOneBE Gear 0 = Returns true 1%float
  /\ processAsDouble pis defs 1 frame3 Ratio 0.5 = Returns false 0.5%float
  /\ processAsDouble pis defs 1 frameOneBE (placedAt 7 true Gear) 0 =
     processAsDouble pis defs 1 frameOneBE Gear 0.
Proof.
  split; [|split].
  - pose proof (proj1 (proj2
      (single_float_decode pis defs 1 frameOneBE Gear 0 eq_refl eq_refl))) as H.
    rewrite H by (simpl; lia). vm_compute. reflexivity.
  - apply (proj1 (single_float_decode pis defs 1 frame3 Ratio 0.5 eq_refl eq_refl)).
    simpl. lia.
  - apply (proj2 (proj2
      (single_float_decode pis defs 1 frameOneBE Gear 0 eq_refl eq_refl)) true).
Defined.

(** [Level] is configured at bit 8 in Intel order; what is decoded is the
    64 bits from bit 0, here the pattern of 1.0, scaled to 3.0. *)
Lemma double_float_whole_frame_witness :
  (processAsDouble pis defs 1 frame9 Level 0 = Returns true 3%float
   /\ processAsText pis num defs 1 frame9 Level "old" = Returns true "Level: 3m")
  /\ (processAsDouble pis defs 1 frame3 Level 0.5 = Returns false 0.5%float
      /\ processAsText pis num defs 1 frame3 Level "old" = Returns false "old")
  /\ (processAsDouble pis defs 1 frame9 (placedAt 0 false Level) 0 =
        processAsDouble pis defs 1 frame9 Level 0
      /\ processAsText pis num defs 1 frame9 (placedAt 0 false Level) "old" =
        processAsText pis num defs 1 frame9 Level "old").
Proof.
  split; [|split].
  - pose proof (proj1 (proj2
      (double_float_whole_frame pis num defs 1 frame9 Level 0 "old" true
         eq_refl eq_refl))) as H.
    assert (L : 8 <= len frame9) by (simpl; lia).
    destruct (H L eq_refl) as (A & B).
    rewrite A, B. vm_compute. split; reflexivity.
  - apply (proj1
      (double_float_whole_frame pis num defs 1 frame3 Level 0.5 "old" true
         eq_refl eq_refl)).
    simpl. lia.
  - apply (proj2 (proj2
      (double_float_whole_frame pis num defs 1 frame9 Level 0 "old" true
         eq_refl eq_refl)) 0 false).
Defined.

Lemma append_empty (s : string) : s ++ "" = s.
Proof. induction s as [|c s IH]; simpl; [reflexivity | now rewrite IH]. Qed.

Lemma Loop_nests : forall n : nat, nests defs n Loop = true.
Proof. induction n as [|n IH]; [reflexivity | exact IH]. Qed.

(** C8 as stated fails on a cyclic chain.  Message 1 names [Loop] as its
    multiplexor and [Loop] is multiplexed in message 1: no bound on the
    nesting lets [processAsInt], [processAsDouble] or [processAsText]
    return on it. *)
Lemma cyclic_chain_never_returns :
  multiplexorOf defs Loop = Some Loop
  /\ ~ (exists fuel ok v, processAsInt pis defs fuel frame3 Loop 0 = Returns ok v)
  /\ ~ (exists fuel ok v,
          processAsDouble pis defs fuel frame3 Loop 0 = Returns ok v)
  /\ ~ (exists fuel ok s,
          processAsText pis num defs fuel frame3 Loop "old" = Returns ok s).
Proof.
  split; [reflexivity|]. split; [|split].
  - intros (fuel & ok & v & H).
    pose proof (proj2 (processAsInt_runs_out pis defs fuel frame3 Loop 0)
                  (Loop_nests fuel)) as R.
    congruence.
  - intros (fuel & ok & v & H).
    assert (R : processAsDouble pis defs fuel frame3 Loop 0 = OutOfFuel).
    { apply processAsDouble_runs_out. unfold blockNests. simpl.
      apply Loop_nests. }
    congruence.
  - intros (fuel & ok & v & H).
    assert (R : processAsText pis num defs fuel frame3 Loop "old" = OutOfFuel).
    { apply processAsText_runs_out. unfold blockNests. simpl.
      apply Loop_nests. }
    congruence.
Qed.

(** The chain of [Amps] ends at its multiplexor [Mode]. *)
Lemma decode_returns_iff_chain_ends_witness :
  nests defs 2 Amps = false
  /\ (exists ok v, processAsInt pis defs 5 frameMode1 Amps 9 = Returns ok v)
  /\ blockNests defs 1 Amps = false
  /\ (exists ok v, processAsDouble pis defs 5 frameMode1 Amps 0.5 = Returns ok v)
  /\ (exists ok s, processAsText pis num defs 5 frameMode1 Amps "old" = Returns ok s).
Proof.
  destruct (decode_returns_iff_chain_ends pis num defs 5 frameMode1 Amps 9 0.5 "old")
    as (_ & _ & _ & I & B).
  split; [reflexivity|].
  split; [apply (I 2%nat); [reflexivity | lia]|].
  split; [reflexivity|].
  apply (B 1%nat); [reflexivity | lia].
Defined.

(** The name is found at its first match, position 1, by all three
    lookups; index 3 is out of range for three entries. *)
Lemma attribute_lookup_uniform_witness :
  DBC_SIGNAL_findAttrValByName QString.compare_CaseInsensitive attrSignal
    "CYCLETIME" = Some 1
  /\ DBC_MESSAGE_findAttrValByName QString.compare_CaseInsensitive attrMessage
       "CYCLETIME" = Some 1
  /\ DBC_NODE_findAttrValByName QString.compare_CaseInsensitive attrNode
       "CYCLETIME" = Some 1
  /\ DBC_SIGNAL_findAttrValByName QString.compare_CaseInsensitive attrSignal
       "BusType" = None
  /\ DBC_SIGNAL_findAttrValByIdx attrSignal 2 = Some 2
  /\ DBC_NODE_findAttrValByIdx attrNode 3 = None.
Proof.
  pose proof (attribute_lookup_uniform QString.compare_CaseInsensitive
                attrSignal attrMessage attrNode "CYCLETIME" 2 eq_refl eq_refl)
    as ((Em & En & _ & _) & ByName & _ & _ & ByIdx & _).
  assert (S1 : DBC_SIGNAL_findAttrValByName QString.compare_CaseInsensitive
                 attrSignal "CYCLETIME" = Some 1).
  { apply ByName. split; [lia|]. split.
    - exists (mkAttr "CycleTime" "100"). split; reflexivity.
    - intros j a L H. assert (j = 0%nat) as -> by (simpl in L; lia).
      simpl in H. injection H as <-. vm_compute. discriminate. }
  split; [exact S1|].
  split; [rewrite Em; exact S1|].
  split; [rewrite En; exact S1|].
  split.
  - apply (attribute_lookup_uniform QString.compare_CaseInsensitive
             attrSignal attrMessage attrNode "BusType" 0 eq_refl eq_refl).
    intros a [<- | [<- | [<- | []]]]; vm_compute; discriminate.
  - split; [apply ByIdx; simpl; lia|].
    pose proof (attribute_lookup_uniform QString.compare_CaseInsensitive
                  attrSignal attrMessage attrNode "" 3 eq_refl eq_refl)
      as ((_ & _ & _ & Ei) & _ & _ & _ & _ & ByIdxNone & _).
    rewrite Ei. apply ByIdxNone. simpl. lia.
Defined.

(** C2, at the example of the specification: a 3-byte frame and a signal
    of 16 bits that starts at bit 20.  [processAsInt] and [processAsDouble]
    return false; [processAsText] has no such check on this path and
    returns true with the text of whatever the extractor delivers.  On a
    STRING signal of bytes 2 and 3 it returns true with a text of two
    characters after reading [data[2]] and [data[3]], the second of
    which is past the 3 bytes of the frame. *)
Theorem short_frame_text_decodes :
  (len frame3 * 8 <? startBit Wide + signalSize Wide)%Z = true
  /\ processAsInt pis defs 1 frame3 Wide 5 = Returns false 5
  /\ processAsDouble pis defs 1 frame3 Wide 0.5 = Returns false 0.5%float
  /\ (forall extractor number,
        let raw := Cxx.to_int64 (extractor (data frame3) 20 16 true false) in
        processAsText extractor number defs 1 frame3 Wide "old" =
        Returns true ("Wide: " ++ number (IEEE.double_of_int raw * 1 + 0)%float))
  /\ (len frame3 * 8 <? startBit Label + signalSize Label)%Z = true
  /\ stringIndices Label = [2; 3]
  /\ inFrame frame3 3 = false
  /\ (exists c : ascii,
        processAsText pis num defs 1 frame3 Label "old" =
        Returns true (String "C" (String c EmptyString))).
Proof.
  repeat split.
  - intros extractor number. unfold processAsText. simpl.
    unfold outputString. simpl. rewrite append_empty. reflexivity.
  - eexists. vm_compute. reflexivity.
Qed.

(** C7, on an SP_FLOAT signal with a value table: the frame holds the
    pattern of 1.0, which scales to 1.0 and truncates to 1.  The entry of
    the table with value 1 is not found; an entry whose value is the bit
    pattern itself, 1065353216, is. *)
Theorem float_value_table_keyed_by_pattern :
  valList Gear = [mkVal 1 "ON"]
  /\ pis (data frameOneBE) (startBit Gear) 32 false false = 1065353216
  /\ processAsDouble pis defs 1 frameOneBE Gear 0 = Returns true 1%float
  /\ IEEE.int64_of_double 1 = 1
  /\ (forall number,
        processAsText pis number defs 1 frameOneBE Gear "old" =
        Returns true ("Gear: " ++ number 1%float))
  /\ processAsText pis num defs 1 frameOneBE Gear "old" = Returns true "Gear: 1"
  /\ valList GearRaw = [mkVal 1065353216 "RAW"]
  /\ (forall number,
        processAsText pis number defs 1 frameOneBE GearRaw "old" =
        Returns true "Gear: RAW").
Proof.
  repeat split.
  intros number.
  rewrite (processAsText_single_float pis number defs 1 frameOneBE Gear "old"
             eq_refl eq_refl).
  unfold outputString.
  replace (Cxx.to_int64 (pis (data frameOneBE) (startBit Gear) 32 false false))
    with 1065353216 by (vm_compute; reflexivity).
  replace (IEEE.float_of_bits 1065353216 * factor Gear + bias Gear)%float
    with 1%float by (vm_compute; reflexivity).
  simpl. rewrite append_empty. reflexivity.
Qed.

End Samples.
